(** * wycc__isDigit.c: the [isDigit] support routine of the Whiley-to-C runtime

    A shallow embedding of [modules/wycc/clib/wycc__isDigit.c] and the
    properties of it that the specification states.

    The C file is a single routine, [wycc__isDigit], and the load-time glue
    that enters it in the runtime's registry.  The routine reads a boxed
    value, panics on a type tag it does not handle, and otherwise allocates a
    boxed boolean.  The embedding threads the process state (the heap of
    boxes, the error stream, the registry and the initializer chain) through
    a small state monad whose outcomes are a normal return, a call of
    [exit], or a fault. *)

From Stdlib Require Import ZArith Ascii String List Lia.
From stdpp Require Import base numbers option gmap strings pretty.

Open Scope Z_scope.

(** ** Data model *)

(** [wycc_obj]: a boxed value.
    Modelled from the spec: the struct is declared in [wycc_lib.h].  The
    routine reads the fields [typ] (the type tag, an [int]) and [ptr] (the
    payload, a [void*], kept here as the 64-bit word it is); [cnt] is the
    reference count. *)
Record wycc_obj : Type := Wycc_object {
  typ : Z;
  cnt : Z;
  ptr : Z
}.

(** Entry points that are stored as function pointers.  [Fn_null] is the
    null function pointer of zero-initialised static storage. *)
Inductive code_ptr : Type :=
| Fn_null
| Fn_wycc__isDigit
| Fn___initor_b
| Fn___initor_d
| Fn_extern (n : Z).

(** [wycc_initor]: one record of the initializer chain ([nxt], [functionr],
    [functionq] are the fields the constructor assigns). *)
Record wycc_initor : Type := Wycc_initor {
  nxt : Z;
  functionr : code_ptr;
  functionq : code_ptr
}.

(** One entry of the FOM registry: name, type signature, entry point. *)
Record routine : Type := Routine {
  r_name : string;
  r_sig : string;
  r_fn : code_ptr
}.

(** The process state the file touches. *)
Record world : Type := World {
  heap : gmap Z wycc_obj;          (* boxes, by address *)
  stderr : list string;            (* what was written to the error stream *)
  registry : list routine;         (* the FOM registry, newest entry first *)
  wycc_init_chain : Z;             (* head of the initializer chain *)
  initors : gmap Z wycc_initor     (* initializer records, by address *)
}.

Definition set_heap (f : gmap Z wycc_obj → gmap Z wycc_obj) (w : world) : world :=
  World (f (heap w)) (stderr w) (registry w) (wycc_init_chain w) (initors w).

Definition set_stderr (f : list string → list string) (w : world) : world :=
  World (heap w) (f (stderr w)) (registry w) (wycc_init_chain w) (initors w).

Definition set_registry (f : list routine → list routine) (w : world) : world :=
  World (heap w) (stderr w) (f (registry w)) (wycc_init_chain w) (initors w).

Definition set_init_chain (p : Z) (w : world) : world :=
  World (heap w) (stderr w) (registry w) p (initors w).

Definition set_initors (f : gmap Z wycc_initor → gmap Z wycc_initor) (w : world) : world :=
  World (heap w) (stderr w) (registry w) (wycc_init_chain w) (f (initors w)).

(** ** The monad of C calls *)

Inductive outcome (A : Type) : Type :=
| Ret (a : A) (w : world)        (* the call returns [a] *)
| Exit (status : Z) (w : world)  (* [exit(status)] was called: nothing returns *)
| Fault.                         (* undefined behaviour (invalid dereference) *)
Arguments Ret {A} a w.
Arguments Exit {A} status w.
Arguments Fault {A}.

Definition M (A : Type) : Type := world → outcome A.

Definition ret {A} (a : A) : M A := fun w => Ret a w.

Definition bind {A B} (m : M A) (k : A → M B) : M B := fun w =>
  match m w with
  | Ret a w' => k a w'
  | Exit s w' => Exit s w'
  | Fault => Fault
  end.

Declare Scope c_scope.
Delimit Scope c_scope with C.
Notation "x <- m ;; k" := (bind m (fun x => k))
  (at level 100, m at next level, right associativity) : c_scope.
Notation "m ;; k" := (bind m (fun _ => k))
  (at level 100, right associativity) : c_scope.
Open Scope c_scope.

(** [exit(status)] of the C library. *)
Definition exit {A} (status : Z) : M A := fun w => Exit status w.

(** [*itm]: reading a box through a pointer. *)
Definition load (itm : Z) : M wycc_obj := fun w =>
  match heap w !! itm with
  | Some o => Ret o w
  | None => Fault
  end.

(** Reading and writing the global [wycc_init_chain]. *)
Definition get_init_chain : M Z := fun w => Ret (wycc_init_chain w) w.

Definition put_init_chain (p : Z) : M unit := fun w => Ret tt (set_init_chain p w).

(** [fprintf(stderr, ...)] with the message already formatted. *)
Definition eprint (msg : string) : M unit := fun w =>
  Ret tt (set_stderr (fun out => out ++ [msg]) w).

(** The newline character of a C string literal. *)
Definition nl : string := String "010"%char EmptyString.

(** [printf]-style formatting, for the one directive the file uses: [%d]
    prints the next argument in decimal. *)
Fixpoint sprintf (fmt : string) (args : list Z) : string :=
  match fmt with
  | String "%" (String "d" rest) =>
      match args with
      | a :: args' => pretty a +:+ sprintf rest args'
      | [] => sprintf rest []
      end
  | String c rest => String c (sprintf rest args)
  | EmptyString => EmptyString
  end.

(** [(long) p] for a pointer-sized value: the 64-bit two's complement
    reading. *)
Definition to_long (p : Z) : Z := (p + 2 ^ 63) mod 2 ^ 64 - 2 ^ 63.

(** A character constant, as the [int] it denotes in C. *)
Definition char_lit (c : ascii) : Z := Z.of_N (N_of_ascii c).

(** ** The rest of the runtime

    What this file takes from the headers and from [wycc_lib.c]: the type
    tags, the sanity test on a box, the exit status of a failed sanity test,
    the reference count a new box starts with, the allocator and the address
    of this file's static initializer record. *)
Class Runtime : Type := {
  Wy_Int : Z;
  Wy_Char : Z;
  Wy_Byte : Z;
  Wy_Bool : Z;
  obj_check : wycc_obj → bool;
  insane_status : Z;
  box_cnt : Z;
  alloc_addr : gmap Z wycc_obj → Z;
  alloc_fresh : ∀ h, h !! alloc_addr h = None;
  alloc_nonnull : ∀ h, alloc_addr h ≠ 0;
  initor_c_addr : Z
}.

Section Routine.
Context `{RT : Runtime}.

(** A pointer passes the sanity test when it is not null, points to a box,
    and the box passes the runtime's check. *)
Definition obj_sane (w : world) (itm : Z) : bool :=
  negb (itm =? 0) &&
  match heap w !! itm with
  | Some o => obj_check o
  | None => false
  end.

(** Modelled from the spec: the macro [WY_OBJ_SANE] of [common.h].  An input
    that fails the well-formedness check is fatal: a diagnostic goes to the
    error stream and the process terminates; a sane input passes with no
    effect. *)
Definition WY_OBJ_SANE (itm : Z) (msg : string) : M unit := fun w =>
  if obj_sane w itm then Ret tt w
  else Exit insane_status (set_stderr (fun out => out ++ [msg]) w).

(** Modelled from the spec: the macro [WY_PANIC] of [common.h].  The panic
    contract is a diagnostic on the error stream followed by the end of the
    process.  The routine writes the two steps one after the other,
    [WY_PANIC(...); exit(-3);], so the macro is the first of them: it formats
    the message and writes it to the error stream. *)
Definition WY_PANIC (fmt : string) (args : list Z) : M unit :=
  eprint (sprintf fmt args).

(** Modelled from the spec: [wycc_box_bool] of [wycc_lib.c].  It allocates a
    new box of variant Boolean that wraps its argument and returns the
    address of the box. *)
Definition wycc_box_bool (x : Z) : M Z := fun w =>
  let a := alloc_addr (heap w) in
  Ret a (set_heap (insert a (Wycc_object Wy_Bool box_cnt x)) w).

(** Modelled from the spec: [wycc_register_routine] of [wycc_lib.c].  It
    enters a routine in the registry under a name and a type signature. *)
Definition wycc_register_routine (name sig : string) (fn : code_ptr) : M unit :=
  fun w => Ret tt (set_registry (cons (Routine name sig fn)) w).

(** [wycc__isDigit], lines 33-60.  [val] starts as [-1] and every branch
    that goes on assigns it; the last branch does not go on. *)
Definition wycc__isDigit (itm : Z) : M Z :=
  WY_OBJ_SANE itm "wycc__isDigit" ;;
  o <- load itm ;;
  val <- (let val := -1 in
          if typ o =? Wy_Int then ret (to_long (ptr o))
          else if typ o =? Wy_Char then ret (to_long (ptr o))
          else if typ o =? Wy_Byte then ret (to_long (ptr o))
          else
            WY_PANIC ("Help needed in wycc__isLetter for type %d" +:+ nl) [typ o] ;;
            exit (-3)) ;;
  if val <? 0 then wycc_box_bool 0
  else
    let ans := 1 in
    let ans := if val <? char_lit "0" then 0
               else if val >? char_lit "9" then 0
               else ans in
    wycc_box_bool ans.

(** [__initor_b], lines 62-67: the registration-phase initializer. *)
Definition __initor_b : M unit :=
  wycc_register_routine "isDigit" "[^b,v,c]" Fn_wycc__isDigit ;;
  ret tt.

(** [__initor_d], lines 69-72: the query-phase initializer. *)
Definition __initor_d : M unit :=
  ret tt.

(** A field assignment to the record at address [a]; static storage is
    zero-initialised. *)
Definition zero_initor : wycc_initor := Wycc_initor 0 Fn_null Fn_null.

Definition store_initor (a : Z) (f : wycc_initor → wycc_initor) : M unit :=
  fun w => Ret tt (set_initors (fun m => <[a := f (default zero_initor (m !! a))]> m) w).

(** [__initor_a], lines 74-81: the load-time constructor.  [__initor_c] is
    the static record at [initor_c_addr]. *)
Definition __initor_a : M unit :=
  head <- get_init_chain ;;
  store_initor initor_c_addr (fun r => Wycc_initor head (functionr r) (functionq r)) ;;
  store_initor initor_c_addr (fun r => Wycc_initor (nxt r) Fn___initor_b (functionq r)) ;;
  store_initor initor_c_addr (fun r => Wycc_initor (nxt r) (functionr r) Fn___initor_d) ;;
  put_init_chain initor_c_addr ;;
  ret tt.

End Routine.

(** ** Observations used by the statements *)

Section Observations.
Context `{RT : Runtime}.

(** The tags the routine handles: Integer, Character, Byte. *)
Definition accepted (t : Z) : bool :=
  (t =? Wy_Int) || (t =? Wy_Char) || (t =? Wy_Byte).

(** The payload of a box as the routine reads it: [(long) itm->ptr]. *)
Definition payload (o : wycc_obj) : Z := to_long (ptr o).

(** The code points of ['0'] to ['9']. *)
Definition is_digit_code (p : Z) : bool := (48 <=? p) && (p <=? 57).

(** The box a call returned, read from the heap the call left. *)
Definition returned_box (out : outcome Z) : option wycc_obj :=
  match out with
  | Ret r w => heap w !! r
  | _ => None
  end.

(** Two boxes are value-equal when tag and payload agree. *)
Definition value_eq (a b : wycc_obj) : bool :=
  (typ a =? typ b) && (ptr a =? ptr b).

(** The addresses the initializer chain visits from [p], following [nxt]
    for at most [fuel] records, up to the null pointer. *)
Fixpoint chain_from (m : gmap Z wycc_initor) (fuel : nat) (p : Z) : list Z :=
  match fuel with
  | O => []
  | S n =>
      if p =? 0 then []
      else p :: match m !! p with
                | Some r => chain_from m n (nxt r)
                | None => []
                end
  end.

(** Whether a diagnostic mentions a name. *)
Definition mentions (name msg : string) : bool :=
  match String.index 0 name msg with
  | Some _ => true
  | None => false
  end.

End Observations.

(** ** A runtime to evaluate in

    The tags are numbered arbitrarily; a box is sane when its reference
    count is positive; the allocator hands out an unused, non-null address. *)

Definition next_addr (h : gmap Z wycc_obj) : Z := fresh ({[0]} ∪ dom h).

Lemma next_addr_fresh (h : gmap Z wycc_obj) : h !! next_addr h = None.
Proof.
  apply not_elem_of_dom. unfold next_addr.
  pose proof (is_fresh ({[0]} ∪ dom h)) as Hf. set_solver.
Qed.

Lemma next_addr_nonnull (h : gmap Z wycc_obj) : next_addr h ≠ 0.
Proof.
  unfold next_addr.
  pose proof (is_fresh ({[0]} ∪ dom h)) as Hf. set_solver.
Qed.

Definition sample_runtime : Runtime := {|
  Wy_Int := 1;
  Wy_Char := 2;
  Wy_Byte := 3;
  Wy_Bool := 4;
  obj_check := fun o => 0 <? cnt o;
  insane_status := -3;
  box_cnt := 1;
  alloc_addr := next_addr;
  alloc_fresh := next_addr_fresh;
  alloc_nonnull := next_addr_nonnull;
  initor_c_addr := 4096
|}.

(** A heap with one box of each accepted variant carrying ['5'], an Integer
    [-1], a Boolean, and a second Integer ['5'] with another reference
    count. *)
Definition sample_heap : gmap Z wycc_obj :=
  <[16 := Wycc_object 1 1 53]>
  (<[32 := Wycc_object 2 1 53]>
  (<[48 := Wycc_object 3 2 53]>
  (<[64 := Wycc_object 1 1 (2 ^ 64 - 1)]>
  (<[80 := Wycc_object 4 1 1]>
  (<[96 := Wycc_object 1 7 53]> ∅))))).

Definition sample_world : world := World sample_heap [] [] 0 ∅.

(** A process state whose chain holds two records of other files. *)
Definition two_initors : gmap Z wycc_initor :=
  <[512 := Wycc_initor 256 (Fn_extern 1) (Fn_extern 2)]>
  (<[256 := Wycc_initor 0 (Fn_extern 3) (Fn_extern 4)]> ∅).

Definition chained_world : world := World ∅ [] [] 512 two_initors.

(** A process state whose heap holds the one box [o], at address 16. *)
Definition one_box (o : wycc_obj) : world := World {[16 := o]} [] [] 0 ∅.

Ltac evaluate := vm_compute; reflexivity.

(** ** Properties of [wycc__isDigit] *)

Section Properties.
Context `{RT : Runtime}.

Lemma char_lit_0 : char_lit "0" = 48.
Proof. reflexivity. Qed.

Lemma char_lit_9 : char_lit "9" = 57.
Proof. reflexivity. Qed.

(** The range test of lines 50-58, as one boolean. *)
Lemma range_test (val : Z) :
  (if val <? 0 then wycc_box_bool 0
   else
     let ans := 1 in
     let ans := if val <? char_lit "0" then 0
                else if val >? char_lit "9" then 0
                else ans in
     wycc_box_bool ans)
  = wycc_box_bool (if is_digit_code val then 1 else 0).
Proof.
  rewrite char_lit_0, char_lit_9. unfold is_digit_code. cbv zeta.
  rewrite Z.gtb_ltb.
  destruct (Z.ltb_spec val 0), (Z.ltb_spec val 48), (Z.ltb_spec 57 val),
    (Z.leb_spec 48 val), (Z.leb_spec val 57); simpl; try reflexivity; lia.
Qed.

Lemma sane_passes (w : world) (itm : Z) (msg : string) :
  obj_sane w itm = true → WY_OBJ_SANE itm msg w = Ret tt w.
Proof. unfold WY_OBJ_SANE. intros ->. reflexivity. Qed.

(** On an accepted tag the routine is the range test on the payload. *)
Lemma isDigit_accepted (w : world) (itm : Z) (o : wycc_obj) :
  heap w !! itm = Some o →
  obj_sane w itm = true →
  accepted (typ o) = true →
  wycc__isDigit itm w = wycc_box_bool (if is_digit_code (payload o) then 1 else 0) w.
Proof.
  intros Hload Hsane Hacc.
  unfold wycc__isDigit, bind at 1. rewrite (sane_passes _ _ _ Hsane).
  unfold bind at 1, load at 1. rewrite Hload.
  rewrite <- range_test. unfold bind, payload, ret. cbv zeta.
  unfold accepted in Hacc.
  destruct (typ o =? Wy_Int); [reflexivity|].
  destruct (typ o =? Wy_Char); [reflexivity|].
  destruct (typ o =? Wy_Byte); [reflexivity|].
  discriminate.
Qed.

(** On any other tag the routine prints its diagnostic and calls
    [exit(-3)]. *)
Lemma isDigit_rejected (w : world) (itm : Z) (o : wycc_obj) :
  heap w !! itm = Some o →
  obj_sane w itm = true →
  accepted (typ o) = false →
  wycc__isDigit itm w =
  Exit (-3)
    (set_stderr
       (fun out => out ++
          [sprintf ("Help needed in wycc__isLetter for type %d" +:+ nl) [typ o]]) w).
Proof.
  intros Hload Hsane Hacc.
  unfold wycc__isDigit, bind at 1. rewrite (sane_passes _ _ _ Hsane).
  unfold bind at 1, load at 1. rewrite Hload.
  unfold accepted in Hacc.
  apply orb_false_iff in Hacc as [Hacc Hb]. apply orb_false_iff in Hacc as [Hi Hc].
  unfold bind at 1. cbv zeta. rewrite Hi, Hc, Hb.
  reflexivity.
Qed.

(** An input that fails the sanity test ends the process before the tag is
    read. *)
Lemma isDigit_insane (w : world) (itm : Z) :
  obj_sane w itm = false →
  wycc__isDigit itm w =
  Exit insane_status (set_stderr (fun out => out ++ ["wycc__isDigit"]) w).
Proof.
  intros Hsane. unfold wycc__isDigit, bind at 1, WY_OBJ_SANE.
  rewrite Hsane. reflexivity.
Qed.

(** The routine never dereferences an invalid pointer: every call either
    returns or ends the process. *)
Lemma isDigit_no_fault (w : world) (itm : Z) : wycc__isDigit itm w ≠ Fault.
Proof.
  destruct (obj_sane w itm) eqn:Hsane.
  - assert (∃ o, heap w !! itm = Some o) as [o Hload].
    { unfold obj_sane in Hsane. apply andb_true_iff in Hsane as [_ Hsane].
      destruct (heap w !! itm) as [o|]; [eauto|discriminate]. }
    destruct (accepted (typ o)) eqn:Hacc.
    + rewrite (isDigit_accepted w itm o Hload Hsane Hacc). discriminate.
    + rewrite (isDigit_rejected w itm o Hload Hsane Hacc). discriminate.
  - rewrite (isDigit_insane w itm Hsane). discriminate.
Qed.

(** The cast to [long] is the identity on the non-negative [long]s and
    lands in the range of [long]. *)
Lemma to_long_small (p : Z) : 0 ≤ p < 2 ^ 63 → to_long p = p.
Proof.
  intros Hp. unfold to_long. rewrite Z.mod_small; lia.
Qed.

Lemma to_long_range (p : Z) : - 2 ^ 63 ≤ to_long p < 2 ^ 63.
Proof.
  unfold to_long. pose proof (Z.mod_pos_bound (p + 2 ^ 63) (2 ^ 64)). lia.
Qed.

Lemma accepted_true (t : Z) :
  accepted t = true ↔ t = Wy_Int ∨ t = Wy_Char ∨ t = Wy_Byte.
Proof.
  unfold accepted. rewrite !orb_true_iff, !Z.eqb_eq. tauto.
Qed.

Lemma accepted_false (t : Z) :
  accepted t = false ↔ t ≠ Wy_Int ∧ t ≠ Wy_Char ∧ t ≠ Wy_Byte.
Proof.
  unfold accepted. rewrite !orb_false_iff, !Z.eqb_neq. tauto.
Qed.

Lemma is_digit_code_true (p : Z) : is_digit_code p = true ↔ 48 ≤ p ≤ 57.
Proof. unfold is_digit_code. rewrite andb_true_iff, !Z.leb_le. tauto. Qed.

(** The whole effect of a call on an accepted tag: one new box. *)
Lemma isDigit_returns (w : world) (itm : Z) (o : wycc_obj) :
  heap w !! itm = Some o →
  obj_sane w itm = true →
  typ o = Wy_Int ∨ typ o = Wy_Char ∨ typ o = Wy_Byte →
  wycc__isDigit itm w =
  Ret (alloc_addr (heap w))
    (set_heap
       (insert (alloc_addr (heap w))
          (Wycc_object Wy_Bool box_cnt (if is_digit_code (payload o) then 1 else 0)))
       w).
Proof.
  intros Hload Hsane Hacc. apply accepted_true in Hacc.
  rewrite (isDigit_accepted w itm o Hload Hsane Hacc). reflexivity.
Qed.

(** C1. For every input box whose tag is Integer, Character or Byte, with
    signed payload [p], the routine returns a boxed boolean that is true
    (wraps 1) iff [48 <= p <= 57] and false (wraps 0) otherwise; for a
    negative [p] it is false whatever the magnitude. *)
Theorem isDigit_true_iff_digit (w : world) (itm : Z) (o : wycc_obj) :
  heap w !! itm = Some o →
  obj_sane w itm = true →
  typ o = Wy_Int ∨ typ o = Wy_Char ∨ typ o = Wy_Byte →
  ∃ r w' b,
    wycc__isDigit itm w = Ret r w' ∧
    heap w' !! r = Some b ∧
    typ b = Wy_Bool ∧
    (ptr b = 1 ↔ 48 ≤ payload o ≤ 57) ∧
    (ptr b = 0 ↔ ¬ 48 ≤ payload o ≤ 57) ∧
    (payload o < 0 → ptr b = 0).
Proof.
  intros Hload Hsane Hacc.
  eexists _, _, _. split; [apply (isDigit_returns w itm o); assumption|].
  split; [apply lookup_insert_eq|]. split; [reflexivity|].
  cbn [ptr]. pose proof (is_digit_code_true (payload o)) as Hd.
  destruct (is_digit_code (payload o)).
  - assert (48 ≤ payload o ≤ 57) by (apply Hd; reflexivity).
    repeat split; intros; solve [assumption | reflexivity | lia | contradiction].
  - assert (¬ 48 ≤ payload o ≤ 57) by (intros Hr; apply Hd in Hr; discriminate).
    repeat split; intros;
      solve [assumption | reflexivity | lia | discriminate | contradiction].
Qed.

(** C2. For every input box whose tag is none of Integer, Character, Byte,
    the routine does not return to its caller: after one diagnostic on the
    error stream the process terminates through [exit] with status -3. *)
Theorem isDigit_unsupported_exits (w : world) (itm : Z) (o : wycc_obj) :
  heap w !! itm = Some o →
  obj_sane w itm = true →
  typ o ≠ Wy_Int → typ o ≠ Wy_Char → typ o ≠ Wy_Byte →
  (∃ w' d, wycc__isDigit itm w = Exit (-3) w' ∧ stderr w' = stderr w ++ [d]) ∧
  (∀ r w', wycc__isDigit itm w ≠ Ret r w').
Proof.
  intros Hload Hsane Hi Hc Hb.
  assert (Hrej : accepted (typ o) = false) by (apply accepted_false; auto).
  rewrite (isDigit_rejected w itm o Hload Hsane Hrej). split.
  - eexists _, _. split; reflexivity.
  - intros r w' Heq. discriminate Heq.
Qed.

(** C3. The range test does not depend on the tag: an Integer, a Character
    and a Byte box that carry the same payload get the same boxed boolean. *)
Theorem isDigit_tag_independent (w : world) (p : Z)
    (itm_i itm_c itm_b : Z) (o_i o_c o_b : wycc_obj) :
  heap w !! itm_i = Some o_i → obj_sane w itm_i = true →
  heap w !! itm_c = Some o_c → obj_sane w itm_c = true →
  heap w !! itm_b = Some o_b → obj_sane w itm_b = true →
  typ o_i = Wy_Int → typ o_c = Wy_Char → typ o_b = Wy_Byte →
  payload o_i = p → payload o_c = p → payload o_b = p →
  ∃ b,
    returned_box (wycc__isDigit itm_i w) = Some b ∧
    returned_box (wycc__isDigit itm_c w) = Some b ∧
    returned_box (wycc__isDigit itm_b w) = Some b.
Proof.
  intros Li Si Lc Sc Lb Sb Ti Tc Tb Pi Pc Pb.
  exists (Wycc_object Wy_Bool box_cnt (if is_digit_code p then 1 else 0)).
  rewrite (isDigit_returns w itm_i o_i), (isDigit_returns w itm_c o_c),
    (isDigit_returns w itm_b o_b) by auto.
  rewrite Pi, Pc, Pb. cbn [returned_box set_heap heap].
  rewrite lookup_insert_eq. auto.
Qed.

(** The diagnostic of the unsupported-type path, spelled out. *)
Lemma isDigit_diagnostic (w : world) (itm : Z) (o : wycc_obj) :
  heap w !! itm = Some o →
  obj_sane w itm = true →
  accepted (typ o) = false →
  ∃ w', wycc__isDigit itm w = Exit (-3) w' ∧
        stderr w' = stderr w ++
          ["Help needed in wycc__isLetter for type " +:+ pretty (typ o) +:+ nl].
Proof.
  intros Hload Hsane Hrej.
  rewrite (isDigit_rejected w itm o Hload Hsane Hrej).
  eexists. split; reflexivity.
Qed.

(** A box allocated by the call leaves a sane input sane and in place. *)
Lemma input_kept (w : world) (itm a : Z) (o b : wycc_obj) :
  heap w !! itm = Some o →
  obj_sane w itm = true →
  heap w !! a = None →
  heap (set_heap (insert a b) w) !! itm = Some o ∧
  obj_sane (set_heap (insert a b) w) itm = true.
Proof.
  intros Hload Hsane Hfree.
  assert (Hne : a ≠ itm) by (intros ->; congruence).
  assert (Hl : heap (set_heap (insert a b) w) !! itm = Some o).
  { cbn [set_heap heap]. rewrite lookup_insert_ne by exact Hne. exact Hload. }
  split; [exact Hl|].
  unfold obj_sane in *. rewrite Hl. rewrite Hload in Hsane. exact Hsane.
Qed.

(** C5. On the accepted input domain the routine always returns: the result
    is a non-null pointer to a box that did not exist before the call, of
    variant Boolean, wrapping exactly 0 or 1. *)
Theorem isDigit_returns_fresh_bool (w : world) (itm : Z) (o : wycc_obj) :
  heap w !! itm = Some o →
  obj_sane w itm = true →
  typ o = Wy_Int ∨ typ o = Wy_Char ∨ typ o = Wy_Byte →
  ∃ r w' b,
    wycc__isDigit itm w = Ret r w' ∧
    r ≠ 0 ∧
    heap w !! r = None ∧
    heap w' !! r = Some b ∧
    typ b = Wy_Bool ∧
    (ptr b = 0 ∨ ptr b = 1).
Proof.
  intros Hload Hsane Hacc.
  eexists _, _, _. split; [apply (isDigit_returns w itm o); assumption|].
  split; [apply alloc_nonnull|]. split; [apply alloc_fresh|].
  split; [apply lookup_insert_eq|]. split; [reflexivity|].
  cbn [ptr]. destruct (is_digit_code (payload o)); auto.
Qed.

(** C6. Two calls in a row on the same input box, which the first call
    leaves unmodified, return boxes that are value-equal. *)
Theorem isDigit_twice_value_equal (w : world) (itm : Z) (o : wycc_obj) :
  heap w !! itm = Some o →
  obj_sane w itm = true →
  typ o = Wy_Int ∨ typ o = Wy_Char ∨ typ o = Wy_Byte →
  ∃ r1 w1 r2 w2 b1 b2,
    wycc__isDigit itm w = Ret r1 w1 ∧
    heap w1 !! itm = Some o ∧
    wycc__isDigit itm w1 = Ret r2 w2 ∧
    heap w2 !! r1 = Some b1 ∧
    heap w2 !! r2 = Some b2 ∧
    value_eq b1 b2 = true.
Proof.
  intros Hload Hsane Hacc.
  set (b := Wycc_object Wy_Bool box_cnt (if is_digit_code (payload o) then 1 else 0)).
  set (r1 := alloc_addr (heap w)).
  set (w1 := set_heap (insert r1 b) w).
  destruct (input_kept w itm r1 o b Hload Hsane (alloc_fresh _)) as [Hload1 Hsane1].
  fold w1 in Hload1, Hsane1.
  set (r2 := alloc_addr (heap w1)).
  exists r1, w1, r2, (set_heap (insert r2 b) w1), b, b.
  split; [apply (isDigit_returns w itm o); assumption|].
  split; [exact Hload1|].
  split; [apply (isDigit_returns w1 itm o); assumption|].
  assert (Hr1 : heap w1 !! r1 = Some b) by apply lookup_insert_eq.
  assert (Hne : r2 ≠ r1).
  { intros Heq. pose proof (alloc_fresh (heap w1)) as Hf. fold r2 in Hf.
    rewrite Heq in Hf. congruence. }
  split; [cbn [set_heap heap]; rewrite lookup_insert_ne by exact Hne; exact Hr1|].
  split; [apply lookup_insert_eq|].
  unfold value_eq. rewrite !Z.eqb_refl. reflexivity.
Qed.

(** C7. On the accepted input domain the only effect of a call is the new
    result box: every box that existed, the input among them, is unchanged,
    and so are the error stream, the registry and the initializer chain. *)
Theorem isDigit_only_allocates (w : world) (itm : Z) (o : wycc_obj) :
  heap w !! itm = Some o →
  obj_sane w itm = true →
  typ o = Wy_Int ∨ typ o = Wy_Char ∨ typ o = Wy_Byte →
  ∃ r w',
    wycc__isDigit itm w = Ret r w' ∧
    heap w !! r = None ∧
    heap w' !! itm = Some o ∧
    (∀ a, a ≠ r → heap w' !! a = heap w !! a) ∧
    stderr w' = stderr w ∧
    registry w' = registry w ∧
    wycc_init_chain w' = wycc_init_chain w ∧
    initors w' = initors w.
Proof.
  intros Hload Hsane Hacc.
  eexists _, _. split; [apply (isDigit_returns w itm o); assumption|].
  split; [apply alloc_fresh|].
  split; [eapply input_kept; eauto using alloc_fresh|].
  split; [|repeat split; reflexivity].
  intros a Hne. cbn [set_heap heap]. apply lookup_insert_ne. congruence.
Qed.

(** C10. The result depends on the tag and the signed payload only: two
    well-formed boxes with the same accepted tag and the same payload,
    whatever their reference counts and whatever else the two process states
    hold, get value-equal boxed booleans. *)
Theorem isDigit_depends_on_tag_and_payload
    (w1 w2 : world) (itm1 itm2 : Z) (o1 o2 : wycc_obj) :
  heap w1 !! itm1 = Some o1 → obj_sane w1 itm1 = true →
  heap w2 !! itm2 = Some o2 → obj_sane w2 itm2 = true →
  typ o1 = Wy_Int ∨ typ o1 = Wy_Char ∨ typ o1 = Wy_Byte →
  typ o1 = typ o2 →
  payload o1 = payload o2 →
  ∃ b1 b2,
    returned_box (wycc__isDigit itm1 w1) = Some b1 ∧
    returned_box (wycc__isDigit itm2 w2) = Some b2 ∧
    value_eq b1 b2 = true.
Proof.
  intros L1 S1 L2 S2 Hacc Htyp Hpay.
  assert (Hacc2 : typ o2 = Wy_Int ∨ typ o2 = Wy_Char ∨ typ o2 = Wy_Byte)
    by (rewrite <- Htyp; exact Hacc).
  rewrite (isDigit_returns w1 itm1 o1 L1 S1 Hacc).
  rewrite (isDigit_returns w2 itm2 o2 L2 S2 Hacc2).
  eexists _, _. cbn [returned_box set_heap heap].
  split; [apply lookup_insert_eq|]. split; [apply lookup_insert_eq|].
  rewrite Hpay. unfold value_eq. rewrite !Z.eqb_refl. reflexivity.
Qed.

(** ** Properties of the registration glue *)

(** C8. The registration-phase initializer enters exactly one routine in
    the registry: the name "isDigit", the signature "[^b,v,c]" and the entry
    point [wycc__isDigit]; it changes nothing else.  The query-phase
    initializer changes nothing at all. *)
Theorem initor_b_registers_isDigit (w : world) :
  (∃ w',
     __initor_b w = Ret tt w' ∧
     registry w' = Routine "isDigit" "[^b,v,c]" Fn_wycc__isDigit :: registry w ∧
     heap w' = heap w ∧
     stderr w' = stderr w ∧
     wycc_init_chain w' = wycc_init_chain w ∧
     initors w' = initors w) ∧
  __initor_d w = Ret tt w.
Proof.
  split; [|reflexivity].
  eexists. split; [reflexivity|]. repeat split; reflexivity.
Qed.

(** The three field assignments of the constructor, taken together. *)
Lemma initor_a_effect (w : world) :
  __initor_a w =
  Ret tt
    (set_init_chain initor_c_addr
       (set_initors
          (insert initor_c_addr
             (Wycc_initor (wycc_init_chain w) Fn___initor_b Fn___initor_d))
          w)).
Proof.
  unfold __initor_a, bind, get_init_chain, put_init_chain, store_initor, ret,
    set_init_chain, set_initors.
  cbn [heap stderr registry wycc_init_chain initors].
  rewrite !lookup_insert_eq. cbn [default nxt functionr functionq].
  rewrite !insert_insert_eq. reflexivity.
Qed.

(** C9. Whatever the chain head was, after the constructor the head is the
    address of this file's record, that record's [nxt] is the former head,
    its callbacks are [__initor_b] and [__initor_d], and every other record
    of the chain, like the rest of the process state, is as it was. *)
Theorem initor_a_prepends (w : world) :
  ∃ w',
    __initor_a w = Ret tt w' ∧
    wycc_init_chain w' = initor_c_addr ∧
    initors w' !! initor_c_addr =
      Some (Wycc_initor (wycc_init_chain w) Fn___initor_b Fn___initor_d) ∧
    (∀ a, a ≠ initor_c_addr → initors w' !! a = initors w !! a) ∧
    heap w' = heap w ∧
    stderr w' = stderr w ∧
    registry w' = registry w.
Proof.
  eexists. split; [apply initor_a_effect|].
  cbn [set_init_chain set_initors wycc_init_chain initors heap stderr registry].
  split; [reflexivity|]. split; [apply lookup_insert_eq|].
  split; [|repeat split; reflexivity].
  intros a Hne. apply lookup_insert_ne. congruence.
Qed.

(** Writing a record the chain does not visit leaves the chain as it is. *)
Lemma chain_from_insert (m : gmap Z wycc_initor) (a : Z) (r : wycc_initor)
    (fuel : nat) (p : Z) :
  a ∉ chain_from m fuel p →
  chain_from (<[a := r]> m) fuel p = chain_from m fuel p.
Proof.
  revert p. induction fuel as [|n IH]; intros p Hnot; [reflexivity|].
  cbn [chain_from] in *. destruct (p =? 0); [reflexivity|].
  apply not_elem_of_cons in Hnot as [Hne Hrest].
  rewrite lookup_insert_ne by exact Hne. f_equal.
  destruct (m !! p) as [q|]; [apply IH; exact Hrest|reflexivity].
Qed.

(** X5. Nothing is lost: the chain after the constructor is this file's
    record followed by the chain as it was, provided the record was not yet
    on it (the constructor runs once, at load time). *)
Lemma initor_a_keeps_chain (w : world) (fuel : nat) :
  initor_c_addr ≠ 0 →
  initor_c_addr ∉ chain_from (initors w) fuel (wycc_init_chain w) →
  ∃ w',
    __initor_a w = Ret tt w' ∧
    chain_from (initors w') (S fuel) (wycc_init_chain w') =
      initor_c_addr :: chain_from (initors w) fuel (wycc_init_chain w).
Proof.
  intros Hnn Hnot. eexists. split; [apply initor_a_effect|].
  cbn [set_init_chain set_initors wycc_init_chain initors chain_from].
  apply Z.eqb_neq in Hnn. rewrite Hnn, lookup_insert_eq. cbn [nxt].
  f_equal. apply chain_from_insert. exact Hnot.
Qed.

(** ** Further properties of [wycc__isDigit] *)

(** A sane pointer points to a box. *)
Lemma sane_points (w : world) (itm : Z) :
  obj_sane w itm = true → ∃ o, heap w !! itm = Some o.
Proof.
  unfold obj_sane. intros Hsane. apply andb_true_iff in Hsane as [_ Hsane].
  destruct (heap w !! itm) as [o|]; [eauto|discriminate].
Qed.

(** On a 64-bit word the range test gives the same answer for the signed
    reading as for the word itself: a word that reads negative is above
    ['9']. *)
Lemma is_digit_code_to_long (p : Z) :
  0 ≤ p < 2 ^ 64 → is_digit_code (to_long p) = is_digit_code p.
Proof.
  intros Hp. destruct (Z.lt_ge_cases p (2 ^ 63)) as [Hlo|Hhi].
  - rewrite to_long_small by lia. reflexivity.
  - assert (Hneg : to_long p = p - 2 ^ 64).
    { unfold to_long.
      replace (p + 2 ^ 63) with (p - 2 ^ 63 + 1 * 2 ^ 64) by lia.
      rewrite Z_mod_plus_full, Z.mod_small; lia. }
    unfold is_digit_code. rewrite Hneg.
    destruct (Z.leb_spec 48 (p - 2 ^ 64)), (Z.leb_spec p 57),
      (Z.leb_spec 48 p), (Z.leb_spec (p - 2 ^ 64) 57); simpl;
      try reflexivity; lia.
Qed.

(** X1. The cast to [long] never changes the answer: for a box of an
    accepted tag whose [ptr] field holds the 64-bit word [p], the result is
    true iff [48 <= p <= 57] for the word as it is stored. *)
Theorem isDigit_on_stored_word (w : world) (itm : Z) (o : wycc_obj) :
  heap w !! itm = Some o →
  obj_sane w itm = true →
  typ o = Wy_Int ∨ typ o = Wy_Char ∨ typ o = Wy_Byte →
  0 ≤ ptr o < 2 ^ 64 →
  ∃ r w' b,
    wycc__isDigit itm w = Ret r w' ∧
    heap w' !! r = Some b ∧
    (ptr b = 1 ↔ 48 ≤ ptr o ≤ 57) ∧
    (ptr b = 0 ↔ ¬ 48 ≤ ptr o ≤ 57).
Proof.
  intros Hload Hsane Hacc Hword.
  eexists _, _, _. split; [apply (isDigit_returns w itm o); assumption|].
  split; [apply lookup_insert_eq|].
  cbn [ptr]. unfold payload. rewrite (is_digit_code_to_long _ Hword).
  pose proof (is_digit_code_true (ptr o)) as Hd.
  destruct (is_digit_code (ptr o)).
  - assert (48 ≤ ptr o ≤ 57) by (apply Hd; reflexivity).
    repeat split; intros; solve [assumption | reflexivity | lia | contradiction].
  - assert (¬ 48 ≤ ptr o ≤ 57) by (intros Hr; apply Hd in Hr; discriminate).
    repeat split; intros;
      solve [assumption | reflexivity | lia | discriminate | contradiction].
Qed.

(** X2. A call that ends the process has allocated nothing: whichever of
    the two fatal paths was taken, the heap, the registry and the
    initializer chain are as before the call, and the error stream has
    grown by exactly one diagnostic. *)
Theorem isDigit_exit_leaves_diagnostic_only
    (w : world) (itm : Z) (s : Z) (w' : world) :
  wycc__isDigit itm w = Exit s w' →
  heap w' = heap w ∧
  registry w' = registry w ∧
  wycc_init_chain w' = wycc_init_chain w ∧
  initors w' = initors w ∧
  ∃ d, stderr w' = stderr w ++ [d].
Proof.
  intros Hrun. destruct (obj_sane w itm) eqn:Hsane.
  - destruct (sane_points w itm Hsane) as [o Hload].
    destruct (accepted (typ o)) eqn:Hacc.
    + rewrite (isDigit_accepted w itm o Hload Hsane Hacc) in Hrun. discriminate.
    + rewrite (isDigit_rejected w itm o Hload Hsane Hacc) in Hrun.
      inversion Hrun; subst. cbn. repeat split; eauto.
  - rewrite (isDigit_insane w itm Hsane) in Hrun.
    inversion Hrun; subst. cbn. repeat split; eauto.
Qed.


(** X4. The text of the unsupported-type diagnostic, for every tag: the
    words "Help needed in wycc__isLetter for type ", the tag in decimal, and
    a newline, appended to the error stream. *)
Theorem isDigit_diagnostic_text (w : world) (itm : Z) (o : wycc_obj) :
  heap w !! itm = Some o →
  obj_sane w itm = true →
  typ o ≠ Wy_Int → typ o ≠ Wy_Char → typ o ≠ Wy_Byte →
  ∃ w', wycc__isDigit itm w = Exit (-3) w' ∧
        stderr w' = stderr w ++
          ["Help needed in wycc__isLetter for type " +:+ pretty (typ o) +:+ nl].
Proof.
  intros Hload Hsane Hi Hc Hb.
  assert (Hrej : accepted (typ o) = false) by (apply accepted_false; auto).
  rewrite (isDigit_rejected w itm o Hload Hsane Hrej).
  eexists. split; reflexivity.
Qed.


(** ** Further properties of the constructor *)

Lemma chain_from_self_loop (m : gmap Z wycc_initor) (a : Z) (r : wycc_initor)
    (fuel : nat) :
  a ≠ 0 → m !! a = Some r → nxt r = a →
  chain_from m fuel a = replicate fuel a.
Proof.
  intros Hnn Hrec Hnxt. induction fuel as [|n IH]; [reflexivity|].
  cbn [chain_from replicate]. apply Z.eqb_neq in Hnn. rewrite Hnn, Hrec, Hnxt.
  f_equal. exact IH.
Qed.

(** X6. The constructor is not safe to run twice: the second run stores the
    head, which by then is the record's own address, in the record's [nxt].
    The record is its own successor, and a walk from the head meets nothing
    but this record, whatever the chain held before. *)
Theorem initor_a_twice_self_loop (w : world) :
  initor_c_addr ≠ 0 →
  ∃ w1 w2,
    __initor_a w = Ret tt w1 ∧
    __initor_a w1 = Ret tt w2 ∧
    wycc_init_chain w2 = initor_c_addr ∧
    initors w2 !! initor_c_addr =
      Some (Wycc_initor initor_c_addr Fn___initor_b Fn___initor_d) ∧
    ∀ fuel, chain_from (initors w2) fuel (wycc_init_chain w2)
            = replicate fuel initor_c_addr.
Proof.
  intros Hnn. eexists _, _.
  split; [apply initor_a_effect|]. split; [apply initor_a_effect|].
  cbn [set_init_chain set_initors wycc_init_chain initors].
  split; [reflexivity|]. split; [apply lookup_insert_eq|].
  intros fuel. eapply chain_from_self_loop; [exact Hnn|apply lookup_insert_eq|reflexivity].
Qed.

End Properties.

(** ** Evaluation on the sample runtime *)

#[local] Existing Instance sample_runtime.

(** The scenarios the specification lists. *)
Example scenario_char_5 :
  returned_box (wycc__isDigit 16 (one_box (Wycc_object Wy_Char 1 53)))
  = Some (Wycc_object Wy_Bool 1 1).
Proof. evaluate. Qed.

Example scenario_int_57 :
  returned_box (wycc__isDigit 16 (one_box (Wycc_object Wy_Int 1 57)))
  = Some (Wycc_object Wy_Bool 1 1).
Proof. evaluate. Qed.

Example scenario_int_58 :
  returned_box (wycc__isDigit 16 (one_box (Wycc_object Wy_Int 1 58)))
  = Some (Wycc_object Wy_Bool 1 0).
Proof. evaluate. Qed.

Example scenario_byte_47 :
  returned_box (wycc__isDigit 16 (one_box (Wycc_object Wy_Byte 1 47)))
  = Some (Wycc_object Wy_Bool 1 0).
Proof. evaluate. Qed.

Example scenario_int_minus_1 :
  returned_box (wycc__isDigit 16 (one_box (Wycc_object Wy_Int 1 (2 ^ 64 - 1))))
  = Some (Wycc_object Wy_Bool 1 0).
Proof. evaluate. Qed.

Example scenario_bool_true :
  ∃ w', wycc__isDigit 16 (one_box (Wycc_object Wy_Bool 1 1)) = Exit (-3) w'.
Proof. eexists. evaluate. Qed.

Example scenario_null :
  ∃ w', wycc__isDigit 0 sample_world = Exit insane_status w'.
Proof. eexists. evaluate. Qed.

(** C1 at the Character ['5'] of the sample heap. *)
Lemma isDigit_true_iff_digit_witness :
  let o := Wycc_object 2 1 53 in
  (heap sample_world !! 32 = Some o ∧
   obj_sane sample_world 32 = true ∧
   (typ o = Wy_Int ∨ typ o = Wy_Char ∨ typ o = Wy_Byte)) ∧
  ∃ r w' b,
    wycc__isDigit 32 sample_world = Ret r w' ∧
    heap w' !! r = Some b ∧
    typ b = Wy_Bool ∧
    (ptr b = 1 ↔ 48 ≤ payload o ≤ 57) ∧
    (ptr b = 0 ↔ ¬ 48 ≤ payload o ≤ 57) ∧
    (payload o < 0 → ptr b = 0).
Proof.
  intros o.
  assert (Hl : heap sample_world !! 32 = Some o) by evaluate.
  assert (Hs : obj_sane sample_world 32 = true) by evaluate.
  assert (Ht : typ o = Wy_Int ∨ typ o = Wy_Char ∨ typ o = Wy_Byte)
    by (right; left; reflexivity).
  split; [auto|].
  exact (isDigit_true_iff_digit sample_world 32 o Hl Hs Ht).
Defined.

(** C2 at the Boolean of the sample heap. *)
Lemma isDigit_unsupported_exits_witness :
  let o := Wycc_object 4 1 1 in
  (heap sample_world !! 80 = Some o ∧
   obj_sane sample_world 80 = true ∧
   typ o ≠ Wy_Int ∧ typ o ≠ Wy_Char ∧ typ o ≠ Wy_Byte) ∧
  (∃ w' d, wycc__isDigit 80 sample_world = Exit (-3) w' ∧
           stderr w' = stderr sample_world ++ [d]) ∧
  (∀ r w', wycc__isDigit 80 sample_world ≠ Ret r w').
Proof.
  intros o.
  assert (Hl : heap sample_world !! 80 = Some o) by evaluate.
  assert (Hs : obj_sane sample_world 80 = true) by evaluate.
  assert (Hi : typ o ≠ Wy_Int) by (vm_compute; discriminate).
  assert (Hc : typ o ≠ Wy_Char) by (vm_compute; discriminate).
  assert (Hb : typ o ≠ Wy_Byte) by (vm_compute; discriminate).
  split; [auto|].
  exact (isDigit_unsupported_exits sample_world 80 o Hl Hs Hi Hc Hb).
Defined.

(** C3 at the three boxes of the sample heap that carry ['5']. *)
Lemma isDigit_tag_independent_witness :
  let o_i := Wycc_object 1 1 53 in
  let o_c := Wycc_object 2 1 53 in
  let o_b := Wycc_object 3 2 53 in
  (heap sample_world !! 16 = Some o_i ∧ obj_sane sample_world 16 = true ∧
   heap sample_world !! 32 = Some o_c ∧ obj_sane sample_world 32 = true ∧
   heap sample_world !! 48 = Some o_b ∧ obj_sane sample_world 48 = true ∧
   typ o_i = Wy_Int ∧ typ o_c = Wy_Char ∧ typ o_b = Wy_Byte ∧
   payload o_i = 53 ∧ payload o_c = 53 ∧ payload o_b = 53) ∧
  ∃ b,
    returned_box (wycc__isDigit 16 sample_world) = Some b ∧
    returned_box (wycc__isDigit 32 sample_world) = Some b ∧
    returned_box (wycc__isDigit 48 sample_world) = Some b.
Proof.
  intros o_i o_c o_b.
  assert (Li : heap sample_world !! 16 = Some o_i) by evaluate.
  assert (Si : obj_sane sample_world 16 = true) by evaluate.
  assert (Lc : heap sample_world !! 32 = Some o_c) by evaluate.
  assert (Sc : obj_sane sample_world 32 = true) by evaluate.
  assert (Lb : heap sample_world !! 48 = Some o_b) by evaluate.
  assert (Sb : obj_sane sample_world 48 = true) by evaluate.
  assert (Pi : payload o_i = 53) by evaluate.
  assert (Pc : payload o_c = 53) by evaluate.
  assert (Pb : payload o_b = 53) by evaluate.
  split; [repeat split; assumption || reflexivity|].
  exact (isDigit_tag_independent sample_world 53 16 32 48 o_i o_c o_b
           Li Si Lc Sc Lb Sb eq_refl eq_refl eq_refl Pi Pc Pb).
Defined.

(** C4, on the Boolean of the sample heap: the diagnostic of the
    unsupported-type path names the type tag, and as the routine it names
    [wycc__isLetter]; [wycc__isDigit], the routine that was called, is not
    mentioned. *)
Lemma isDigit_panic_names_isLetter :
  ∃ w' d,
    wycc__isDigit 80 sample_world = Exit (-3) w' ∧
    stderr w' = [d] ∧
    d = "Help needed in wycc__isLetter for type 4" +:+ nl ∧
    mentions "wycc__isLetter" d = true ∧
    mentions "isDigit" d = false.
Proof.
  destruct (isDigit_diagnostic sample_world 80 (Wycc_object 4 1 1))
    as [w' [Hrun Herr]]; [evaluate..|].
  exists w', ("Help needed in wycc__isLetter for type 4" +:+ nl).
  split; [exact Hrun|]. split; [rewrite Herr; evaluate|].
  split; [reflexivity|]. split; evaluate.
Qed.

(** C5 at the Integer [-1] of the sample heap. *)
Lemma isDigit_returns_fresh_bool_witness :
  let o := Wycc_object 1 1 (2 ^ 64 - 1) in
  (heap sample_world !! 64 = Some o ∧
   obj_sane sample_world 64 = true ∧
   (typ o = Wy_Int ∨ typ o = Wy_Char ∨ typ o = Wy_Byte)) ∧
  ∃ r w' b,
    wycc__isDigit 64 sample_world = Ret r w' ∧
    r ≠ 0 ∧
    heap sample_world !! r = None ∧
    heap w' !! r = Some b ∧
    typ b = Wy_Bool ∧
    (ptr b = 0 ∨ ptr b = 1).
Proof.
  intros o.
  assert (Hl : heap sample_world !! 64 = Some o) by evaluate.
  assert (Hs : obj_sane sample_world 64 = true) by evaluate.
  assert (Ht : typ o = Wy_Int ∨ typ o = Wy_Char ∨ typ o = Wy_Byte)
    by (left; reflexivity).
  split; [auto|].
  exact (isDigit_returns_fresh_bool sample_world 64 o Hl Hs Ht).
Defined.

(** C6 at the Byte ['5'] of the sample heap. *)
Lemma isDigit_twice_value_equal_witness :
  let o := Wycc_object 3 2 53 in
  (heap sample_world !! 48 = Some o ∧
   obj_sane sample_world 48 = true ∧
   (typ o = Wy_Int ∨ typ o = Wy_Char ∨ typ o = Wy_Byte)) ∧
  ∃ r1 w1 r2 w2 b1 b2,
    wycc__isDigit 48 sample_world = Ret r1 w1 ∧
    heap w1 !! 48 = Some o ∧
    wycc__isDigit 48 w1 = Ret r2 w2 ∧
    heap w2 !! r1 = Some b1 ∧
    heap w2 !! r2 = Some b2 ∧
    value_eq b1 b2 = true.
Proof.
  intros o.
  assert (Hl : heap sample_world !! 48 = Some o) by evaluate.
  assert (Hs : obj_sane sample_world 48 = true) by evaluate.
  assert (Ht : typ o = Wy_Int ∨ typ o = Wy_Char ∨ typ o = Wy_Byte)
    by (right; right; reflexivity).
  split; [auto|].
  exact (isDigit_twice_value_equal sample_world 48 o Hl Hs Ht).
Defined.

(** C7 at the Integer ['5'] of the sample heap. *)
Lemma isDigit_only_allocates_witness :
  let o := Wycc_object 1 1 53 in
  (heap sample_world !! 16 = Some o ∧
   obj_sane sample_world 16 = true ∧
   (typ o = Wy_Int ∨ typ o = Wy_Char ∨ typ o = Wy_Byte)) ∧
  ∃ r w',
    wycc__isDigit 16 sample_world = Ret r w' ∧
    heap sample_world !! r = None ∧
    heap w' !! 16 = Some o ∧
    (∀ a, a ≠ r → heap w' !! a = heap sample_world !! a) ∧
    stderr w' = stderr sample_world ∧
    registry w' = registry sample_world ∧
    wycc_init_chain w' = wycc_init_chain sample_world ∧
    initors w' = initors sample_world.
Proof.
  intros o.
  assert (Hl : heap sample_world !! 16 = Some o) by evaluate.
  assert (Hs : obj_sane sample_world 16 = true) by evaluate.
  assert (Ht : typ o = Wy_Int ∨ typ o = Wy_Char ∨ typ o = Wy_Byte)
    by (left; reflexivity).
  split; [auto|].
  exact (isDigit_only_allocates sample_world 16 o Hl Hs Ht).
Defined.

(** C10 at two Integer ['5'] boxes with different reference counts, in two
    different process states. *)
Lemma isDigit_depends_on_tag_and_payload_witness :
  let o1 := Wycc_object 1 1 53 in
  let o2 := Wycc_object 1 7 53 in
  let w2 := World {[8 := o2]} ["earlier output"] [] 4096 ∅ in
  (heap sample_world !! 16 = Some o1 ∧ obj_sane sample_world 16 = true ∧
   heap w2 !! 8 = Some o2 ∧ obj_sane w2 8 = true ∧
   (typ o1 = Wy_Int ∨ typ o1 = Wy_Char ∨ typ o1 = Wy_Byte) ∧
   typ o1 = typ o2 ∧
   payload o1 = payload o2) ∧
  ∃ b1 b2,
    returned_box (wycc__isDigit 16 sample_world) = Some b1 ∧
    returned_box (wycc__isDigit 8 w2) = Some b2 ∧
    value_eq b1 b2 = true.
Proof.
  intros o1 o2 w2.
  assert (L1 : heap sample_world !! 16 = Some o1) by evaluate.
  assert (S1 : obj_sane sample_world 16 = true) by evaluate.
  assert (L2 : heap w2 !! 8 = Some o2) by evaluate.
  assert (S2 : obj_sane w2 8 = true) by evaluate.
  assert (Ht : typ o1 = Wy_Int ∨ typ o1 = Wy_Char ∨ typ o1 = Wy_Byte)
    by (left; reflexivity).
  split; [repeat split; assumption || reflexivity|].
  exact (isDigit_depends_on_tag_and_payload sample_world w2 16 8 o1 o2
           L1 S1 L2 S2 Ht eq_refl eq_refl).
Defined.

(** The chain is kept, on a chain of two records of other files. *)
Example initor_a_keeps_chain_example :
  let m : gmap Z wycc_initor :=
    <[512 := Wycc_initor 256 (Fn_extern 1) (Fn_extern 2)]>
    (<[256 := Wycc_initor 0 (Fn_extern 3) (Fn_extern 4)]> ∅) in
  ∃ w',
    __initor_a (World ∅ [] [] 512 m) = Ret tt w' ∧
    chain_from (initors w') 8 (wycc_init_chain w') = [4096; 512; 256].
Proof. intros m. eexists. split; evaluate. Qed.

(** X1 at the Integer of the sample heap whose word is [2^64 - 1]. *)
Lemma isDigit_on_stored_word_witness :
  let o := Wycc_object 1 1 (2 ^ 64 - 1) in
  (heap sample_world !! 64 = Some o ∧
   obj_sane sample_world 64 = true ∧
   (typ o = Wy_Int ∨ typ o = Wy_Char ∨ typ o = Wy_Byte) ∧
   0 ≤ ptr o < 2 ^ 64) ∧
  ∃ r w' b,
    wycc__isDigit 64 sample_world = Ret r w' ∧
    heap w' !! r = Some b ∧
    (ptr b = 1 ↔ 48 ≤ ptr o ≤ 57) ∧
    (ptr b = 0 ↔ ¬ 48 ≤ ptr o ≤ 57).
Proof.
  intros o.
  assert (Hl : heap sample_world !! 64 = Some o) by evaluate.
  assert (Hs : obj_sane sample_world 64 = true) by evaluate.
  assert (Ht : typ o = Wy_Int ∨ typ o = Wy_Char ∨ typ o = Wy_Byte)
    by (left; reflexivity).
  assert (Hw : 0 ≤ ptr o < 2 ^ 64) by (cbn [ptr o]; lia).
  split; [auto|].
  exact (isDigit_on_stored_word sample_world 64 o Hl Hs Ht Hw).
Defined.

(** X2 at the Boolean of the sample heap. *)
Lemma isDigit_exit_leaves_diagnostic_only_witness :
  let w' :=
    World sample_heap ["Help needed in wycc__isLetter for type 4" +:+ nl] [] 0 ∅ in
  wycc__isDigit 80 sample_world = Exit (-3) w' ∧
  (heap w' = heap sample_world ∧
   registry w' = registry sample_world ∧
   wycc_init_chain w' = wycc_init_chain sample_world ∧
   initors w' = initors sample_world ∧
   ∃ d, stderr w' = stderr sample_world ++ [d]).
Proof.
  intros w'.
  assert (Hrun : wycc__isDigit 80 sample_world = Exit (-3) w') by evaluate.
  split; [exact Hrun|].
  exact (isDigit_exit_leaves_diagnostic_only sample_world 80 (-3) w' Hrun).
Defined.

(** X4 at the Boolean of the sample heap. *)
Lemma isDigit_diagnostic_text_witness :
  let o := Wycc_object 4 1 1 in
  (heap sample_world !! 80 = Some o ∧
   obj_sane sample_world 80 = true ∧
   typ o ≠ Wy_Int ∧ typ o ≠ Wy_Char ∧ typ o ≠ Wy_Byte) ∧
  ∃ w', wycc__isDigit 80 sample_world = Exit (-3) w' ∧
        stderr w' = stderr sample_world ++
          ["Help needed in wycc__isLetter for type " +:+ pretty (typ o) +:+ nl].
Proof.
  intros o.
  assert (Hl : heap sample_world !! 80 = Some o) by evaluate.
  assert (Hs : obj_sane sample_world 80 = true) by evaluate.
  assert (Hi : typ o ≠ Wy_Int) by (vm_compute; discriminate).
  assert (Hc : typ o ≠ Wy_Char) by (vm_compute; discriminate).
  assert (Hb : typ o ≠ Wy_Byte) by (vm_compute; discriminate).
  split; [auto|].
  exact (isDigit_diagnostic_text sample_world 80 o Hl Hs Hi Hc Hb).
Defined.

(** X5 on the chain of two records. *)
Lemma initor_a_keeps_chain_witness :
  (initor_c_addr ≠ 0 ∧
   initor_c_addr ∉ chain_from (initors chained_world) 8 (wycc_init_chain chained_world)) ∧
  ∃ w',
    __initor_a chained_world = Ret tt w' ∧
    chain_from (initors w') 9 (wycc_init_chain w') =
      initor_c_addr ::
        chain_from (initors chained_world) 8 (wycc_init_chain chained_world).
Proof.
  assert (Hnn : initor_c_addr ≠ 0) by (vm_compute; discriminate).
  assert (Hnot : initor_c_addr ∉
            chain_from (initors chained_world) 8 (wycc_init_chain chained_world)).
  { replace (chain_from (initors chained_world) 8 (wycc_init_chain chained_world))
      with [512; 256] by evaluate.
    intros Hin. apply elem_of_cons in Hin as [Heq|Hin]; [vm_compute in Heq; discriminate|].
    apply elem_of_cons in Hin as [Heq|Hin]; [vm_compute in Heq; discriminate|].
    inversion Hin. }
  split; [auto|].
  exact (initor_a_keeps_chain chained_world 8 Hnn Hnot).
Defined.

(** X6 on the chain of two records: after the second run they are out of
    reach. *)
Lemma initor_a_twice_self_loop_witness :
  initor_c_addr ≠ 0 ∧
  ∃ w1 w2,
    __initor_a chained_world = Ret tt w1 ∧
    __initor_a w1 = Ret tt w2 ∧
    wycc_init_chain w2 = initor_c_addr ∧
    initors w2 !! initor_c_addr =
      Some (Wycc_initor initor_c_addr Fn___initor_b Fn___initor_d) ∧
    ∀ fuel, chain_from (initors w2) fuel (wycc_init_chain w2)
            = replicate fuel initor_c_addr.
Proof.
  assert (Hnn : initor_c_addr ≠ 0) by (vm_compute; discriminate).
  split; [exact Hnn|].
  exact (initor_a_twice_self_loop chained_world Hnn).
Defined.

